(** * bus-watchface: time until the next bus

    A shallow embedding of [src/bus-watchface.c] (a Pebble watchface that
    shows the minutes left until the next bus of one line at one stop) and
    the properties of its timetable lookup, its duration arithmetic and its
    text formatting.

    The C type [int] is the 32-bit two's-complement integer of the Pebble's
    ARM core.  It is modelled as [Z], every arithmetic operation being
    followed by an explicit reduction into the 32-bit signed range. *)

From stdpp Require Import base numbers list strings pretty.

Local Open Scope Z_scope.

(** ** The C type [int] *)

Definition int_min : Z := - 2 ^ 31.
Definition int_max : Z := 2 ^ 31 - 1.

Definition is_int (z : Z) : Prop := int_min ≤ z ≤ int_max.

(** Reduction of an unbounded integer to the 32-bit signed value with the
    same low 32 bits. *)
Definition wrap (z : Z) : Z := (z + 2 ^ 31) `mod` 2 ^ 32 - 2 ^ 31.

Definition int_add (a b : Z) : Z := wrap (a + b).
Definition int_sub (a b : Z) : Z := wrap (a - b).
Definition int_mul (a b : Z) : Z := wrap (a * b).

(** ** Data types *)

(** [typedef struct { int hour; int minute; } day_time;] *)
Record day_time : Type := mk_day_time { hour : Z; minute : Z }.

Notation "⟨ h , m ⟩" := (mk_day_time h m) (format "⟨ h ,  m ⟩").

Global Instance day_time_eq_dec : EqDecision day_time.
Proof. solve_decision. Defined.

(** ** The parameters *)

Definition bus_number : string := "700".

Definition schedule : list day_time :=
  [ ⟨5, 47⟩; ⟨6, 6⟩; ⟨6, 25⟩; ⟨6, 45⟩; ⟨7, 6⟩; ⟨7, 21⟩; ⟨7, 37⟩; ⟨7, 53⟩;
    ⟨8, 9⟩; ⟨8, 25⟩; ⟨8, 40⟩; ⟨9, 7⟩; ⟨9, 29⟩; ⟨9, 51⟩; ⟨10, 14⟩; ⟨10, 36⟩;
    ⟨10, 58⟩; ⟨11, 19⟩; ⟨11, 40⟩; ⟨12, 2⟩; ⟨12, 23⟩; ⟨12, 44⟩; ⟨13, 6⟩;
    ⟨13, 27⟩; ⟨13, 48⟩; ⟨14, 10⟩; ⟨14, 26⟩; ⟨14, 42⟩; ⟨14, 58⟩; ⟨15, 14⟩;
    ⟨15, 30⟩; ⟨15, 46⟩; ⟨16, 7⟩; ⟨16, 28⟩; ⟨16, 50⟩; ⟨17, 6⟩; ⟨17, 22⟩;
    ⟨17, 38⟩; ⟨17, 54⟩; ⟨18, 10⟩; ⟨18, 26⟩; ⟨18, 42⟩; ⟨18, 58⟩; ⟨19, 14⟩;
    ⟨19, 30⟩; ⟨19, 54⟩; ⟨20, 18⟩; ⟨20, 42⟩; ⟨21, 5⟩; ⟨21, 24⟩; ⟨21, 43⟩;
    ⟨22, 3⟩; ⟨22, 22⟩; ⟨22, 41⟩; ⟨23, 1⟩; ⟨23, 20⟩; ⟨23, 39⟩; ⟨23, 59⟩;
    ⟨0, 18⟩; ⟨0, 37⟩ ].

(** [sizeof(schedule)/sizeof(schedule[0])] *)
Definition schedule_size : Z := Z.of_nat (length schedule).

(** ** Outcomes

    The C functions return plain values.  Reading [schedule[0]] of an array
    without elements has no defined result; the embedding makes that
    outcome explicit as [OutOfBounds].  [EmptyTimetable] is the error the
    specification asks the initialization to report; it is part of the
    outcome type so that the requirement can be stated against the code. *)

Inductive fault : Type := EmptyTimetable | OutOfBounds.

Inductive res (A : Type) : Type :=
  | Ok (a : A)
  | Fail (f : fault).
Global Arguments Ok {A} a.
Global Arguments Fail {A} f.

Global Instance res_bind : MBind res := λ A B k m,
  match m with
  | Ok a => k a
  | Fail f => Fail f
  end.

(** ** Comparison *)

Definition compare (a b : day_time) : Z :=
  if hour a <? hour b then -1
  else if hour a =? hour b then int_sub (minute a) (minute b)
  else 1.

(** ** Lookup of the next arrival *)

(** The [for] loop of [next_arrival]: the first [schedule[i]], by
    increasing [i], with [compare(schedule[i], now) > 0]; [None] when the
    loop runs to [schedule_size] without returning. *)
Fixpoint first_after (l : list day_time) (now : day_time) : option day_time :=
  match l with
  | [] => None
  | e :: l' => if 0 <? compare e now then Some e else first_after l' now
  end.

(** [next_arrival] reads the global array [schedule]; [next_arrival_on]
    takes the array it scans as the argument [tt]. *)
Definition next_arrival_on (tt : list day_time) (now : day_time) : res day_time :=
  match first_after tt now with
  | Some e => Ok e
  | None =>
      match tt !! 0%nat with
      | Some a => Ok ⟨int_add (hour a) 24, minute a⟩
      | None => Fail OutOfBounds
      end
  end.

Definition next_arrival : day_time → res day_time := next_arrival_on schedule.

(** ** Difference in minutes *)

Definition minutes_difference (next now : day_time) : Z :=
  let mins := int_sub (minute next) (minute now) in
  let '(mins, carry) :=
    if mins <? 0 then (int_add mins 60, 1) else (mins, 0) in
  int_add mins (int_mul (int_sub (int_sub (hour next) (hour now)) carry) 60).

(** ** The display *)

(** The texts of the three text layers [header], [counter] and [details],
    and whether the minute tick is subscribed. *)
Record screen : Type := mk_screen {
  header_text : string;
  counter_text : string;
  details_text : string;
  ticking : bool
}.

(** [snprintf(buf, size, ...)] keeps at most [size - 1] characters. *)
Definition snprintf (size : nat) (s : string) : string :=
  String.substring 0 (size - 1) s.

(** The conversions ["%d"] and ["%02d"]. *)
Definition fmt_d (z : Z) : string := pretty z.
Definition fmt_02d (z : Z) : string :=
  let s := pretty z in
  if (String.length s <? 2)%nat then "0" +:+ s else s.

(** The two forms of the counter text. *)
Definition over_an_hour : string := "60+m".
Definition minutes_text (mins : Z) : string := snprintf 10 (fmt_d mins +:+ "m").

(** The hour as [update_content] prints it. *)
Definition shown_hour (a : day_time) : Z :=
  if 24 <? hour a then int_sub (hour a) 24 else hour a.

(** The details text ["%s:  %d:%02d"], before and after [snprintf] cuts
    it to the size of its buffer. *)
Definition details_full (a : day_time) : string :=
  bus_number +:+ ":  " +:+ fmt_d (shown_hour a) +:+ ":" +:+ fmt_02d (minute a).

Definition details_of (a : day_time) : string := snprintf 20 (details_full a).

Section Watchface.
Variable tt : list day_time.

(** [update_content]; [now] is the reading of the wall clock that the
    function takes through [time] and [localtime]. *)
Definition update_content_on (now : day_time) (ui : screen) : res screen :=
  a ← next_arrival_on tt now;
  let mins := minutes_difference a now in
  let ui :=
    if 60 <? mins
    then mk_screen (header_text ui) over_an_hour (details_text ui) (ticking ui)
    else mk_screen (header_text ui) (minutes_text mins) (details_text ui) (ticking ui) in
  Ok (mk_screen (header_text ui) (counter_text ui) (details_of a) (ticking ui)).

(** [window_load]: the three layers are created, the header is set, and
    the content is computed for the first time. *)
Definition window_load_on (now : day_time) : res screen :=
  update_content_on now (mk_screen "Next Bus" "" "" false).

Definition handle_tick_on (now : day_time) (ui : screen) : res screen :=
  update_content_on now ui.

(** [init]: pushing the window makes the framework call its load
    handler; then the minute tick is subscribed. *)
Definition init_on (now : day_time) : res screen :=
  ui ← window_load_on now;
  Ok (mk_screen (header_text ui) (counter_text ui) (details_text ui) true).
End Watchface.

Definition update_content := update_content_on schedule.
Definition window_load := window_load_on schedule.
Definition handle_tick := handle_tick_on schedule.
Definition init := init_on schedule.

(** ** The total-minutes formulation

    The specification's alternative to the carry-based computation: a point
    is the number of minutes since midnight of day 0, and a duration is the
    difference of two such numbers, computed in the same integer type. *)

Definition total_minutes (t : day_time) : Z :=
  int_add (int_mul (hour t) 60) (minute t).

Definition total_minutes_difference (next now : day_time) : Z :=
  int_sub (total_minutes next) (total_minutes now).

(** The same quantity over the unbounded integers. *)
Definition exact_minutes (t : day_time) : Z := hour t * 60 + minute t.

(** ** Predicates of the specification *)

(** A point of one day, be it a reading of the wall clock or an entry of
    the timetable: hour in [0,23], minute in [0,59]. *)
Definition in_day (t : day_time) : Prop :=
  0 ≤ hour t ≤ 23 ∧ 0 ≤ minute t ≤ 59.

(** A point whose minute is a minute of the clock face. *)
Definition clock_minute (e : day_time) : Prop := 0 ≤ minute e ≤ 59.

(** Ascending order under [compare]: every entry compares less than or
    equal to its successor. *)
Definition ascending (l : list day_time) : Prop :=
  ∀ (i : nat) a b, l !! i = Some a → l !! S i = Some b → compare a b ≤ 0.

Fixpoint ascendingb (l : list day_time) : bool :=
  match l with
  | a :: (b :: _) as l' => (compare a b <=? 0) && ascendingb l'
  | _ => true
  end.

(** ** Checks run over finite ranges *)

(** Up to a day of minutes, ["%dm"] fits its buffer, and its text is never
    the over-an-hour indicator. *)
Definition counter_check (z : Z) : bool :=
  bool_decide (minutes_text z = fmt_d z +:+ "m")
  && negb (bool_decide (fmt_d z +:+ "m" = over_an_hour)).

(** On every point [next_arrival] can return, the details text fits its
    buffer and its hour is an hour of the day. *)
Definition details_check (a : day_time) : bool :=
  bool_decide (details_of a = details_full a)
  && (0 <=? shown_hour a) && (shown_hour a <=? 23)
  && ((shown_hour a =? hour a)
      || ((24 <? hour a) && (shown_hour a =? hour a - 24))).

(** ** The life of the application *)

(** [app_event_loop], as far as this watchface is concerned: the minute
    ticks it delivers, in order, each with the reading of the clock that
    [update_content] takes at that tick. *)
Definition app_event_loop_on (tt : list day_time) (ticks : list day_time)
    (r : res screen) : res screen :=
  foldl (λ r now, ui ← r; handle_tick_on tt now ui) r ticks.

(** [main], up to [deinit]: [init] at the reading [start], then the event
    loop. *)
Definition main_on (tt : list day_time) (start : day_time)
    (ticks : list day_time) : res screen :=
  app_event_loop_on tt ticks (init_on tt start).

Definition main := main_on schedule.

(** ** The layout of the text layers *)

(** The [int16_t] of the fields of [GRect]. *)
Definition wrap16 (z : Z) : Z := (z + 2 ^ 15) `mod` 2 ^ 16 - 2 ^ 15.

(** The division of C on [int]: the quotient is truncated toward zero. *)
Definition int_div (a b : Z) : Z := wrap (a `quot` b).

(** [GRect]: an origin and a size. *)
Record GRect : Type := mk_GRect {
  origin_x : Z; origin_y : Z; size_w : Z; size_h : Z
}.

Inductive GFont : Type := FONT_KEY_BITHAM_42_BOLD | FONT_KEY_GOTHIC_28.
Inductive GColor : Type := GColorWhite | GColorBlack.
Inductive GTextAlignment : Type :=
  GTextAlignmentLeft | GTextAlignmentCenter | GTextAlignmentRight.

(** What the watchface sets of a [TextLayer]: the frame it is created
    with, its bounds, font, colors and alignment. *)
Record TextLayer : Type := mk_TextLayer {
  frame : GRect;
  bounds : GRect;
  font : GFont;
  text_color : GColor;
  background_color : GColor;
  text_alignment : GTextAlignment
}.

(** The vertical shift [aligned_text_layer_create] computes for the bounds. *)
Definition aligned_offset (h font_size height : Z) : Z :=
  let offset := int_div h 2 in
  let offset := int_sub offset font_size in
  let offset := int_add offset (int_div height 2) in
  int_div offset 2.

Definition aligned_text_layer_create (rect : GRect) (font_size : Z) : TextLayer :=
  let '(font, height) :=
    if font_size =? 42 then (FONT_KEY_BITHAM_42_BOLD, 30)
    else if font_size =? 28 then (FONT_KEY_GOTHIC_28, 18)
    else (FONT_KEY_GOTHIC_28, 18) in
  let offset := aligned_offset (size_h rect) font_size height in
  mk_TextLayer rect
    (mk_GRect 0 (wrap16 offset) (size_w rect) (size_h rect))
    font GColorWhite GColorBlack GTextAlignmentCenter.

(** The three layers [window_load] creates, in the order [header],
    [counter], [details]; [win] is the bounds of the root layer of the
    window. *)
Definition window_load_layers (win : GRect) : list TextLayer :=
  [ aligned_text_layer_create (mk_GRect 0 0 (size_w win) 42) 28;
    aligned_text_layer_create (mk_GRect 0 42 (size_w win) 84) 42;
    aligned_text_layer_create (mk_GRect 0 (int_sub 168 42) (size_w win) 42) 28 ].

(** The rows [y], [y + 1], ... below the top of a frame. *)
Definition frame_bottom (r : GRect) : Z := origin_y r + size_h r.

(** ** The points of a day, in order *)

(** The point of the day [k] minutes after midnight. *)
Definition minute_of_day (k : Z) : day_time := ⟨k `div` 60, k `mod` 60⟩.

(** The arrival found at [k] minutes after midnight is not later than the
    one found a minute after. *)
Definition step_check (k : Z) : bool :=
  match next_arrival (minute_of_day k), next_arrival (minute_of_day (k + 1)) with
  | Ok a, Ok b => compare a b <=? 0
  | _, _ => false
  end.

(** The duration shown at [k] minutes after midnight is between 1 and 348
    minutes. *)
Definition duration_check (k : Z) : bool :=
  match next_arrival (minute_of_day k) with
  | Ok a =>
      (1 <=? minutes_difference a (minute_of_day k))
      && (minutes_difference a (minute_of_day k) <=? 348)
  | Fail _ => false
  end.

(** * Integer arithmetic *)

Lemma wrap_small z : is_int z → wrap z = z.
Proof.
  unfold is_int, int_min, int_max, wrap. intros Hz.
  rewrite Z.mod_small by lia. lia.
Qed.

Lemma wrap_is_int z : is_int (wrap z).
Proof.
  unfold is_int, int_min, int_max, wrap.
  pose proof (Z.mod_pos_bound (z + 2 ^ 31) (2 ^ 32)). lia.
Qed.

(** Equations between [int] expressions: every reduction is replaced by
    its quotient and remainder, which leaves linear arithmetic. *)
Ltac wrap_lia :=
  unfold int_add, int_sub, int_mul, wrap;
  change (2 ^ 32) with 4294967296; change (2 ^ 31) with 2147483648;
  Z.div_mod_to_equations; lia.

(** * The comparison *)

Lemma compare_refl a : is_int (minute a) → compare a a = 0.
Proof.
  intros Hm. unfold compare, int_sub.
  rewrite Z.ltb_irrefl, Z.eqb_refl, Z.sub_diag. by apply wrap_small.
Qed.

(** With minutes of the clock face, [compare] is the sign pattern of the
    lexicographic order on (hour, minute). *)
Lemma compare_pos a b :
  0 ≤ minute a ≤ 59 → 0 ≤ minute b ≤ 59 →
  0 < compare a b ↔ hour b < hour a ∨ (hour a = hour b ∧ minute b < minute a).
Proof.
  intros Ha Hb. unfold compare, int_sub.
  rewrite wrap_small by (unfold is_int, int_min, int_max; lia).
  destruct (Z.ltb_spec (hour a) (hour b)), (Z.eqb_spec (hour a) (hour b)); lia.
Qed.

Lemma compare_later_hour a b : hour b < hour a → compare a b = 1.
Proof.
  intros H. unfold compare.
  destruct (Z.ltb_spec (hour a) (hour b)), (Z.eqb_spec (hour a) (hour b)); lia.
Qed.

(** * The scan *)

Lemma first_after_Some l now e :
  first_after l now = Some e →
  ∃ pre post, l = pre ++ e :: post
    ∧ Forall (λ x, compare x now ≤ 0) pre ∧ 0 < compare e now.
Proof.
  induction l as [|x l IH]; simpl; [done|].
  destruct (Z.ltb_spec 0 (compare x now)) as [Hx|Hx].
  - intros [= ->]. by exists [], l.
  - intros Hl. destruct (IH Hl) as (pre & post & -> & Hpre & He).
    exists (x :: pre), post. split_and!; [done| |done]. by constructor.
Qed.

Lemma first_after_None l now :
  first_after l now = None ↔ Forall (λ x, compare x now ≤ 0) l.
Proof.
  induction l as [|x l IH]; simpl.
  - split; [constructor|done].
  - destruct (Z.ltb_spec 0 (compare x now)) as [Hx|Hx].
    + split; [done|]. intros [? _]%Forall_cons. lia.
    + rewrite IH, Forall_cons. tauto.
Qed.

Lemma first_after_elem l now e : first_after l now = Some e → e ∈ l.
Proof.
  intros (pre & post & -> & _)%first_after_Some.
  apply elem_of_app. right. by left.
Qed.

(** The scan returns the element at the least index that compares greater
    than [now]. *)
Lemma first_after_index l now e :
  first_after l now = Some e →
  ∃ i : nat, l !! i = Some e ∧ 0 < compare e now
    ∧ ∀ (j : nat) x, (j < i)%nat → l !! j = Some x → compare x now ≤ 0.
Proof.
  intros (pre & post & -> & Hpre & He)%first_after_Some.
  exists (length pre). split_and!; [|done|].
  - by rewrite list_lookup_middle.
  - intros j x Hj. rewrite lookup_app_l by done.
    intros Hx. eapply Forall_lookup_1 in Hpre; [exact Hpre|exact Hx].
Qed.

(** * The duration *)

(** Whatever branch is taken, the carry-based computation is the exact
    difference in minutes reduced to an [int]. *)
Lemma minutes_difference_wrap next now :
  minutes_difference next now = wrap (exact_minutes next - exact_minutes now).
Proof.
  unfold minutes_difference, exact_minutes.
  destruct (int_sub (minute next) (minute now) <? 0); wrap_lia.
Qed.

Lemma total_minutes_difference_wrap next now :
  total_minutes_difference next now
  = wrap (exact_minutes next - exact_minutes now).
Proof.
  unfold total_minutes_difference, total_minutes, exact_minutes. wrap_lia.
Qed.

Lemma minutes_difference_exact next now :
  is_int (exact_minutes next - exact_minutes now) →
  minutes_difference next now = exact_minutes next - exact_minutes now.
Proof. intros H. rewrite minutes_difference_wrap. by apply wrap_small. Qed.

(** * The compiled-in schedule *)

Lemma schedule_in_day : Forall in_day schedule.
Proof. unfold schedule, in_day. repeat (constructor; [simpl; lia|]). constructor. Qed.

Lemma schedule_first : schedule !! 0%nat = Some ⟨5, 47⟩.
Proof. reflexivity. Qed.

Lemma schedule_has_23_59 : ⟨23, 59⟩ ∈ schedule.
Proof. apply (list_elem_of_lookup_2 _ 57). reflexivity. Qed.

(** The two ways [next_arrival] returns on the compiled-in schedule. *)
Lemma next_arrival_cases now :
  (∃ e, first_after schedule now = Some e ∧ next_arrival now = Ok e)
  ∨ (first_after schedule now = None ∧ next_arrival now = Ok ⟨29, 47⟩).
Proof.
  unfold next_arrival, next_arrival_on.
  destruct (first_after schedule now) as [e|]; [left; by exists e|right].
  by rewrite schedule_first.
Qed.

(** The fallback is taken, among the readings of the clock, at 23:59 only. *)
Lemma first_after_None_valid now :
  in_day now → first_after schedule now = None → now = ⟨23, 59⟩.
Proof.
  intros [Hh Hm] Hall%first_after_None.
  rewrite Forall_forall in Hall. specialize (Hall _ schedule_has_23_59).
  assert (¬ 0 < compare ⟨23, 59⟩ now) as Hn by lia.
  rewrite compare_pos in Hn by (simpl; lia). simpl in Hn.
  destruct now as [h m]; simpl in *. f_equal; lia.
Qed.

Lemma ascendingb_sound l : ascendingb l = true → ascending l.
Proof.
  induction l as [|a [|b l] IH]; intros Hb i x y Hx Hy; [done|done|].
  simpl in Hb. apply andb_true_iff in Hb as [Hab Hl]. apply Z.leb_le in Hab.
  destruct i as [|i]; simpl in *; [by simplify_eq|]. by apply (IH Hl i).
Qed.

(** * Properties of the lookup *)

(** C1. For every reading [now] of the clock (hour in [0,23], minute in
    [0,59]), [next_arrival] returns, on the compiled-in schedule, a point
    that compares strictly greater than [now]; a schedule entry equal to
    [now] is never the one returned. *)
Theorem next_arrival_strictly_after now :
  in_day now →
  ∃ a, next_arrival now = Ok a ∧ 0 < compare a now
    ∧ ∀ e, e ∈ schedule → e = now → a ≠ e.
Proof.
  intros [Hh Hm].
  assert (∀ a, 0 < compare a now → ∀ e, e ∈ schedule → e = now → a ≠ e) as Hne.
  { intros a Ha e _ -> ->. rewrite compare_refl in Ha; [lia|].
    unfold is_int, int_min, int_max. lia. }
  destruct (next_arrival_cases now) as [(e & He & ->)|[_ ->]].
  - apply first_after_Some in He as (_ & _ & _ & _ & He). eauto.
  - assert (0 < compare ⟨29, 47⟩ now) by (rewrite compare_later_hour; simpl; lia).
    eauto.
Qed.

Lemma next_arrival_strictly_after_at_5_47 :
  in_day ⟨5, 47⟩
  ∧ ∃ a, next_arrival ⟨5, 47⟩ = Ok a ∧ 0 < compare a ⟨5, 47⟩
      ∧ ∀ e, e ∈ schedule → e = ⟨5, 47⟩ → a ≠ e.
Proof.
  split; [unfold in_day; simpl; lia|].
  apply (next_arrival_strictly_after ⟨5, 47⟩). unfold in_day; simpl; lia.
Defined.

(** C2. At 23:59 the scan finds no entry: the entries (0,18) and (0,37)
    that follow (23,59) in the array have a smaller hour.  [next_arrival]
    returns the first entry of the next day, (29,47), which is 348 minutes
    away, although the schedule has a bus at 0:18, 19 minutes away. *)
Theorem next_arrival_at_23_59 :
  next_arrival ⟨23, 59⟩ = Ok ⟨29, 47⟩
  ∧ minutes_difference ⟨29, 47⟩ ⟨23, 59⟩ = 348
  ∧ next_arrival ⟨23, 59⟩ ≠ Ok ⟨24, 18⟩
  ∧ schedule !! 58%nat = Some ⟨0, 18⟩
  ∧ compare ⟨0, 18⟩ ⟨23, 59⟩ = -1.
Proof. by split_and!. Qed.

(** C3, as the specification states it, does not hold: at 0:37
    [next_arrival] does not return (29,47). *)
Lemma next_arrival_at_0_37_not_wrapped :
  ¬ ∃ a, next_arrival ⟨0, 37⟩ = Ok a ∧ a = ⟨29, 47⟩
      ∧ minutes_difference a ⟨0, 37⟩ = 1750.
Proof. intros (a & Ha & -> & _). vm_compute in Ha. discriminate. Qed.

(** C3, amended. At 0:37 the scan stops at once at the first entry (5,47),
    whose hour is greater; [next_arrival] returns it as stored, without the
    24 hours of the wraparound, and it is 310 minutes away. *)
Theorem next_arrival_at_0_37 :
  first_after schedule ⟨0, 37⟩ = Some ⟨5, 47⟩
  ∧ next_arrival ⟨0, 37⟩ = Ok ⟨5, 47⟩
  ∧ minutes_difference ⟨5, 47⟩ ⟨0, 37⟩ = 310.
Proof. by split_and!. Qed.

(** C4. Every entry of the schedule has its hour in [0,23] and its minute
    in [0,59], and the first 58 entries ascend; but (23,59), at index 57,
    compares greater than its successor (0,18): the array is not sorted
    under [compare]. *)
Theorem schedule_not_ascending :
  schedule !! 57%nat = Some ⟨23, 59⟩
  ∧ schedule !! 58%nat = Some ⟨0, 18⟩
  ∧ compare ⟨23, 59⟩ ⟨0, 18⟩ = 1
  ∧ ¬ ascending schedule
  ∧ ascending (take 58 schedule)
  ∧ Forall in_day schedule.
Proof.
  split_and!; [done|done|done| |by apply ascendingb_sound|apply schedule_in_day].
  intros Hasc. by specialize (Hasc 57%nat ⟨23, 59⟩ ⟨0, 18⟩ eq_refl eq_refl).
Qed.

(** C5. If every entry of the schedule compares less than or equal to
    [now], [next_arrival] returns the first entry with its hour increased
    by exactly 24 and its minute unchanged, and that point compares
    strictly greater than every reading of the clock; otherwise it returns
    the entry of least index that compares strictly greater than [now]. *)
Theorem next_arrival_wraps_or_scans now :
  (Forall (λ e, compare e now ≤ 0) schedule →
     ∃ first, schedule !! 0%nat = Some first
       ∧ next_arrival now = Ok ⟨hour first + 24, minute first⟩
       ∧ ∀ now', in_day now' →
           0 < compare ⟨hour first + 24, minute first⟩ now')
  ∧ (¬ Forall (λ e, compare e now ≤ 0) schedule →
     ∃ (i : nat) e, schedule !! i = Some e ∧ 0 < compare e now
       ∧ (∀ (j : nat) x, (j < i)%nat → schedule !! j = Some x →
            compare x now ≤ 0)
       ∧ next_arrival now = Ok e).
Proof.
  rewrite <-first_after_None.
  destruct (next_arrival_cases now) as [(e & He & Hn)|[He Hn]]; split.
  - by rewrite He.
  - intros _. apply first_after_index in He as (i & Hi & Hpos & Hbefore).
    by exists i, e.
  - intros _. exists ⟨5, 47⟩. split_and!; [done|done|].
    intros now' [Hh _]. rewrite compare_later_hour; simpl; lia.
  - done.
Qed.

Lemma next_arrival_wraps_or_scans_witness :
  (Forall (λ e, compare e ⟨23, 59⟩ ≤ 0) schedule
   ∧ next_arrival ⟨23, 59⟩ = Ok ⟨29, 47⟩)
  ∧ (¬ Forall (λ e, compare e ⟨6, 6⟩ ≤ 0) schedule
     ∧ next_arrival ⟨6, 6⟩ = Ok ⟨6, 25⟩).
Proof.
  assert (Forall (λ e, compare e ⟨23, 59⟩ ≤ 0) schedule) as Hall
    by by apply first_after_None.
  assert (¬ Forall (λ e, compare e ⟨6, 6⟩ ≤ 0) schedule) as Hsome
    by by rewrite <-first_after_None.
  split; (split; [done|]).
  - destruct (proj1 (next_arrival_wraps_or_scans ⟨23, 59⟩) Hall)
      as (first & Hfirst & -> & _).
    by injection Hfirst as <-.
  - destruct (proj2 (next_arrival_wraps_or_scans ⟨6, 6⟩) Hsome)
      as (i & e & _ & _ & _ & He).
    rewrite He. vm_compute in He. by rewrite <-He.
Defined.

(** * Properties of the duration *)

(** C6, as the specification states it, does not hold: with minutes in
    [0,59] and non-negative hours, [next] after [now], the product by 60
    leaves the range of [int] and the result is negative. *)
Lemma minutes_difference_overflows :
  let next := ⟨35791395, 0⟩ in
  let now := ⟨0, 0⟩ in
  (0 ≤ minute next ≤ 59 ∧ 0 ≤ minute now ≤ 59)
  ∧ (0 ≤ hour next ∧ 0 ≤ hour now)
  ∧ (is_int (hour next) ∧ is_int (hour now))
  ∧ 0 < compare next now
  ∧ minutes_difference next now = -2147483596
  ∧ ¬ 0 ≤ minutes_difference next now.
Proof.
  assert (minutes_difference ⟨35791395, 0⟩ ⟨0, 0⟩ = -2147483596) as Hmd
    by by vm_compute.
  cbv zeta. rewrite Hmd. unfold is_int, int_min, int_max. simpl.
  split_and!; first [lia | reflexivity].
Qed.

(** Within the range of [int], the duration to a later point is the exact
    distance in minutes. *)
Lemma minutes_difference_after next now :
  0 ≤ minute next ≤ 59 → 0 ≤ minute now ≤ 59 →
  0 < compare next now →
  exact_minutes next - exact_minutes now ≤ int_max →
  0 ≤ minutes_difference next now
  ∧ minutes_difference next now = exact_minutes next - exact_minutes now.
Proof.
  intros Hn Hw Hc Hfit. apply compare_pos in Hc; [|done..].
  rewrite minutes_difference_exact; unfold exact_minutes in *; [lia|].
  unfold is_int, int_min, int_max in *. lia.
Qed.

(** The next arrival is less than a day away. *)
Lemma next_arrival_within_day now :
  in_day now →
  ∃ a, next_arrival now = Ok a ∧ 0 ≤ minutes_difference a now < 1440.
Proof.
  intros Hnow.
  destruct (next_arrival_cases now) as [(e & He & ->)|[He ->]].
  - exists e. split; [done|].
    pose proof (first_after_elem _ _ _ He) as Hin.
    apply first_after_Some in He as (_ & _ & _ & _ & Hc).
    pose proof schedule_in_day as Hday. rewrite Forall_forall in Hday.
    destruct (Hday e Hin) as [Hh Hm], Hnow as [Hh' Hm'].
    destruct (minutes_difference_after e now) as [Hpos Heq]; [done..| |].
    + unfold exact_minutes, int_max. lia.
    + rewrite Heq in Hpos |- *. unfold exact_minutes in *. lia.
  - rewrite (first_after_None_valid now Hnow He).
    exists ⟨29, 47⟩. by vm_compute.
Qed.

(** C6, amended. With minutes in [0,59] and non-negative hours, if [next]
    compares greater than [now] and their distance in minutes does not
    exceed [int_max] (as is the case when the hour of [next] is at most
    35791393), then [minutes_difference] is that distance, which is
    non-negative; and for every reading [now] of the clock, the duration
    until [next_arrival now] lies in [0, 1440). *)
Theorem minutes_difference_nonneg :
  (∀ next now,
     0 ≤ minute next ≤ 59 → 0 ≤ minute now ≤ 59 →
     0 ≤ hour next → 0 ≤ hour now →
     0 < compare next now →
     exact_minutes next - exact_minutes now ≤ int_max →
     0 ≤ minutes_difference next now
     ∧ minutes_difference next now = exact_minutes next - exact_minutes now)
  ∧ (∀ next now,
     0 ≤ minute next ≤ 59 → 0 ≤ minute now ≤ 59 →
     0 ≤ hour next ≤ 35791393 → 0 ≤ hour now →
     0 < compare next now →
     0 ≤ minutes_difference next now)
  ∧ (∀ now, in_day now →
     ∃ a, next_arrival now = Ok a ∧ 0 ≤ minutes_difference a now < 1440).
Proof.
  split_and!.
  - intros next now Hn Hw _ _. by apply minutes_difference_after.
  - intros next now Hn Hw Hh Hh' Hc.
    apply minutes_difference_after; [done..|].
    unfold exact_minutes, int_max. lia.
  - apply next_arrival_within_day.
Qed.

Lemma minutes_difference_nonneg_witness :
  (0 < compare ⟨6, 6⟩ ⟨5, 47⟩ ∧ 0 ≤ minutes_difference ⟨6, 6⟩ ⟨5, 47⟩)
  ∧ (in_day ⟨23, 59⟩
     ∧ ∃ a, next_arrival ⟨23, 59⟩ = Ok a
         ∧ 0 ≤ minutes_difference a ⟨23, 59⟩ < 1440).
Proof.
  destruct minutes_difference_nonneg as (Hgen & _ & Hnext).
  split.
  - split; [reflexivity|].
    apply (Hgen ⟨6, 6⟩ ⟨5, 47⟩);
      first [reflexivity | simpl; lia | vm_compute; discriminate].
  - assert (in_day ⟨23, 59⟩) as Hv by (unfold in_day; simpl; lia).
    split; [exact Hv|]. exact (Hnext ⟨23, 59⟩ Hv).
Defined.

(** C7. With minutes in [0,59] and no condition on the order of the two
    points, the carry-based [minutes_difference] and the total-minutes
    formulation are the same function: both are the exact difference
    [(next.hour*60 + next.minute) - (now.hour*60 + now.minute)] reduced to
    an [int], hence that difference itself whenever it is an [int]. *)
Theorem minutes_difference_total_minutes next now :
  0 ≤ minute next ≤ 59 → 0 ≤ minute now ≤ 59 →
  minutes_difference next now = total_minutes_difference next now
  ∧ minutes_difference next now = wrap (exact_minutes next - exact_minutes now)
  ∧ (is_int (exact_minutes next - exact_minutes now) →
     minutes_difference next now = exact_minutes next - exact_minutes now).
Proof.
  intros _ _. split_and!.
  - by rewrite minutes_difference_wrap, total_minutes_difference_wrap.
  - apply minutes_difference_wrap.
  - apply minutes_difference_exact.
Qed.

Lemma minutes_difference_total_minutes_witness :
  (0 ≤ minute ⟨5, 47⟩ ≤ 59 ∧ 0 ≤ minute ⟨23, 59⟩ ≤ 59)
  ∧ minutes_difference ⟨5, 47⟩ ⟨23, 59⟩
    = total_minutes_difference ⟨5, 47⟩ ⟨23, 59⟩.
Proof.
  assert (0 ≤ minute ⟨5, 47⟩ ≤ 59) as Hnext by (simpl; lia).
  assert (0 ≤ minute ⟨23, 59⟩ ≤ 59) as Hnow by (simpl; lia).
  split; [done|].
  exact (proj1 (minutes_difference_total_minutes ⟨5, 47⟩ ⟨23, 59⟩ Hnext Hnow)).
Defined.

(** * Properties of the display *)

Lemma seqZ_forallb (b : Z → bool) lo len :
  forallb b (seqZ lo len) = true → ∀ z, lo ≤ z < lo + len → b z = true.
Proof.
  rewrite forallb_forall. intros Hall z Hz.
  apply Hall, list_elem_of_In, elem_of_seqZ. lia.
Qed.

Lemma minutes_text_form z :
  0 ≤ z < 1440 →
  minutes_text z = fmt_d z +:+ "m" ∧ fmt_d z +:+ "m" ≠ over_an_hour.
Proof.
  intros Hz.
  assert (counter_check z = true) as Hc.
  { apply (seqZ_forallb counter_check 0 1440); [by vm_compute|lia]. }
  apply andb_true_iff in Hc as [H1 H2]. apply negb_true_iff in H2.
  split; [by apply bool_decide_eq_true in H1|by apply bool_decide_eq_false in H2].
Qed.

Lemma details_check_arrivals :
  forallb details_check (⟨29, 47⟩ :: schedule) = true.
Proof. by vm_compute. Qed.

Lemma next_arrival_range now a :
  next_arrival now = Ok a → a ∈ ⟨29, 47⟩ :: schedule.
Proof.
  destruct (next_arrival_cases now) as [(e & He & ->)|[_ ->]]; intros [= <-].
  - right. by eapply first_after_elem.
  - left.
Qed.

Lemma update_content_unfold now ui a :
  next_arrival now = Ok a →
  update_content now ui
  = Ok (mk_screen (header_text ui)
          (if 60 <? minutes_difference a now
           then over_an_hour else minutes_text (minutes_difference a now))
          (details_of a) (ticking ui)).
Proof.
  unfold update_content, update_content_on. fold next_arrival. intros ->.
  simpl. by destruct (60 <? minutes_difference a now).
Qed.

(** C8. For every reading [now] of the clock, with [mins] the duration
    until the next arrival: the counter shows the over-an-hour indicator
    ["60+m"] exactly when [mins > 60], and the number followed by ["m"]
    exactly when [mins ≤ 60]; the hour printed in the details text (the hour
    of the arrival, less 24 when it exceeds 24) lies in [0,23]. *)
Theorem update_content_texts now ui :
  in_day now →
  ∃ a ui', next_arrival now = Ok a ∧ update_content now ui = Ok ui'
    ∧ (counter_text ui' = over_an_hour ↔ 60 < minutes_difference a now)
    ∧ (counter_text ui' = fmt_d (minutes_difference a now) +:+ "m"
       ↔ minutes_difference a now ≤ 60)
    ∧ details_text ui' = details_full a
    ∧ 0 ≤ shown_hour a ≤ 23
    ∧ (shown_hour a = hour a ∨ (24 < hour a ∧ shown_hour a = hour a - 24)).
Proof.
  intros Hnow.
  destruct (next_arrival_within_day now Hnow) as (a & Ha & Hmins).
  exists a. eexists. split; [done|]. split; [by apply update_content_unfold|].
  destruct (minutes_text_form _ Hmins) as [Htext Hne].
  pose proof details_check_arrivals as Hd. rewrite forallb_forall in Hd.
  specialize (Hd a). rewrite <-list_elem_of_In in Hd.
  specialize (Hd (next_arrival_range _ _ Ha)). unfold details_check in Hd.
  repeat (apply andb_true_iff in Hd as [Hd ?]).
  apply bool_decide_eq_true in Hd. simpl.
  split_and!.
  - destruct (Z.ltb_spec 60 (minutes_difference a now)); [done|].
    rewrite Htext. split; [done|lia].
  - destruct (Z.ltb_spec 60 (minutes_difference a now)).
    + split; [intros Heq; by rewrite Heq in Hne|lia].
    + by rewrite Htext.
  - done.
  - lia.
  - lia.
  - destruct (shown_hour a =? hour a) eqn:E; [left; lia|right].
    simpl in *. apply andb_true_iff in H as [??]. lia.
Qed.

Lemma update_content_texts_at_13_00 :
  in_day ⟨13, 0⟩
  ∧ ∃ a ui', next_arrival ⟨13, 0⟩ = Ok a
      ∧ update_content ⟨13, 0⟩ (mk_screen "Next Bus" "" "" false) = Ok ui'
      ∧ counter_text ui' = "6m" ∧ details_text ui' = "700:  13:06".
Proof.
  assert (in_day ⟨13, 0⟩) as Hv by (unfold in_day; simpl; lia).
  split; [exact Hv|].
  destruct (update_content_texts ⟨13, 0⟩ (mk_screen "Next Bus" "" "" false) Hv)
    as (a & ui' & Ha & Hui & _ & _ & Hdet & _).
  exists a, ui'. split; [done|]. split; [done|].
  vm_compute in Ha. injection Ha as <-.
  vm_compute in Hui. injection Hui as <-. by split.
Defined.

(** * The empty timetable *)

Lemma next_arrival_on_fault tt now f :
  next_arrival_on tt now = Fail f → f = OutOfBounds ∧ tt = [].
Proof.
  unfold next_arrival_on.
  destruct (first_after tt now); [done|].
  destruct tt as [|e tt]; simpl; [|done]. by intros [= <-].
Qed.

Lemma update_content_on_fault tt now ui f :
  update_content_on tt now ui = Fail f → next_arrival_on tt now = Fail f.
Proof.
  unfold update_content_on, mbind, res_bind.
  destruct (next_arrival_on tt now) as [a|f']; [discriminate|].
  by intros [= ->].
Qed.

Lemma init_on_fault tt now f :
  init_on tt now = Fail f → next_arrival_on tt now = Fail f.
Proof.
  unfold init_on, window_load_on, mbind, res_bind. intros Hf.
  apply (update_content_on_fault tt now (mk_screen "Next Bus" "" "" false)).
  by destruct (update_content_on tt now _).
Qed.

(** C9, as the specification states it, does not hold: on the empty
    timetable [init] reports no empty-timetable error; the lookup is
    performed and reads [schedule[0]] outside the array. *)
Lemma init_on_empty_unchecked :
  init_on [] ⟨12, 0⟩ ≠ Fail EmptyTimetable
  ∧ next_arrival_on [] ⟨12, 0⟩ = Fail OutOfBounds
  ∧ init_on [] ⟨12, 0⟩ = Fail OutOfBounds.
Proof. by split_and!. Qed.

(** C9, amended. No path of the code reports an empty-timetable error:
    neither [init] nor a tick ever ends in [EmptyTimetable], the only fault
    is the read of [schedule[0]] by [next_arrival], and it happens exactly
    on the empty timetable, at the first lookup [init] performs.  The
    compiled-in schedule has 60 entries, so [next_arrival] and [init]
    always return on it. *)
Theorem empty_timetable_unchecked :
  (∀ tt now, init_on tt now ≠ Fail EmptyTimetable
     ∧ ∀ ui, handle_tick_on tt now ui ≠ Fail EmptyTimetable)
  ∧ (∀ tt now, init_on tt now = Fail OutOfBounds ↔ tt = [])
  ∧ (∀ now, next_arrival_on [] now = Fail OutOfBounds)
  ∧ schedule_size = 60
  ∧ (∀ now, ∃ a, next_arrival now = Ok a)
  ∧ (∀ now, ∃ ui, init now = Ok ui).
Proof.
  split_and!.
  - intros tt now. split.
    + by intros [? _]%init_on_fault%next_arrival_on_fault.
    + by intros ui [? _]%update_content_on_fault%next_arrival_on_fault.
  - intros tt now. split.
    + by intros [_ ?]%init_on_fault%next_arrival_on_fault.
    + by intros ->.
  - done.
  - done.
  - intros now. destruct (next_arrival_cases now) as [(e & _ & ->)|[_ ->]]; eauto.
  - intros now. destruct (init now) as [ui|f] eqn:Hi; [eauto|].
    by apply init_on_fault, next_arrival_on_fault in Hi as [_ ?].
Qed.

(** * The entries after midnight *)

Lemma first_after_head e l now :
  0 < compare e now → first_after (e :: l) now = Some e.
Proof. intros H%Z.ltb_lt. cbn [first_after]. by rewrite H. Qed.

Lemma first_after_schedule_head now :
  0 < compare ⟨5, 47⟩ now → first_after schedule now = Some ⟨5, 47⟩.
Proof. apply (first_after_head ⟨5, 47⟩). Qed.

(** An entry of hour 0 compares greater than [now] only if the hour of
    [now] is not positive; the first entry (5,47) then compares greater as
    well. *)
Lemma midnight_entry_after m now :
  0 < compare ⟨0, m⟩ now → compare ⟨5, 47⟩ now = 1.
Proof.
  intros Hc. apply compare_later_hour. simpl.
  unfold compare in Hc. simpl in Hc.
  destruct (Z.ltb_spec 0 (hour now)); lia.
Qed.

(** C10. Whatever the hour of [now], with its minute in [0,59]:
    [next_arrival] returns neither (0,18) nor (0,37).  When one of them
    compares greater than [now], so does the first entry (5,47), at which
    the scan has already returned; and when the scan finds nothing, the
    result is (29,47). *)
Theorem trailing_entries_unreachable now :
  0 ≤ minute now ≤ 59 →
  next_arrival now ≠ Ok ⟨0, 18⟩
  ∧ next_arrival now ≠ Ok ⟨0, 37⟩
  ∧ (0 < compare ⟨0, 18⟩ now ∨ 0 < compare ⟨0, 37⟩ now →
     0 < compare ⟨5, 47⟩ now ∧ next_arrival now = Ok ⟨5, 47⟩)
  ∧ (first_after schedule now = None → next_arrival now = Ok ⟨29, 47⟩).
Proof.
  intros _.
  assert (∀ m, 0 < compare ⟨0, m⟩ now →
    0 < compare ⟨5, 47⟩ now ∧ next_arrival now = Ok ⟨5, 47⟩) as Hhead.
  { intros m Hm%midnight_entry_after. split; [lia|].
    unfold next_arrival, next_arrival_on.
    rewrite first_after_schedule_head; [done|lia]. }
  assert (∀ m, next_arrival now ≠ Ok ⟨0, m⟩) as Hnever.
  { intros m Hret.
    destruct (next_arrival_cases now) as [(e & He & Hn)|[_ Hn]];
      rewrite Hn in Hret; [|done].
    injection Hret as ->.
    apply first_after_Some in He as (_ & _ & _ & _ & Hc).
    destruct (Hhead m Hc) as [_ Hhd]. by rewrite Hn in Hhd. }
  split_and!; [apply Hnever|apply Hnever| |].
  - intros [H|H]; by eapply Hhead.
  - intros Hnone. by destruct (next_arrival_cases now) as [(e & He & _)|[_ ->]];
      [rewrite Hnone in He|].
Qed.

Lemma trailing_entries_unreachable_at_0_10 :
  0 ≤ minute ⟨0, 10⟩ ≤ 59
  ∧ 0 < compare ⟨0, 18⟩ ⟨0, 10⟩
  ∧ next_arrival ⟨0, 10⟩ ≠ Ok ⟨0, 18⟩
  ∧ next_arrival ⟨0, 10⟩ = Ok ⟨5, 47⟩.
Proof.
  assert (0 ≤ minute ⟨0, 10⟩ ≤ 59) as Hm by (simpl; lia).
  assert (0 < compare ⟨0, 18⟩ ⟨0, 10⟩) as Hc by reflexivity.
  destruct (trailing_entries_unreachable ⟨0, 10⟩ Hm) as (H18 & _ & Hhead & _).
  do 3 (split; [done|]). by apply Hhead; left.
Defined.

(** * Further properties of the comparison *)

(** X1. On points whose minutes are [int] values, [compare] returns 0
    exactly for equal points. *)
Theorem compare_zero_iff a b :
  is_int (minute a) → is_int (minute b) →
  compare a b = 0 ↔ a = b.
Proof.
  unfold is_int, int_min, int_max. intros Ha Hb. split.
  - unfold compare.
    destruct (Z.ltb_spec (hour a) (hour b)); [lia|].
    destruct (Z.eqb_spec (hour a) (hour b)) as [Hh|]; [|lia].
    intros Hm. assert (minute a = minute b) by (revert Hm; wrap_lia).
    destruct a, b; simpl in *. by f_equal.
  - intros ->. apply compare_refl. unfold is_int, int_min, int_max. lia.
Qed.

Lemma compare_zero_iff_witness :
  (is_int (minute ⟨6, 6⟩) ∧ is_int (minute ⟨6, 25⟩))
  ∧ (compare ⟨6, 6⟩ ⟨6, 25⟩ = 0 ↔ ⟨6, 6⟩ = ⟨6, 25⟩).
Proof.
  assert (is_int 6) as H6 by (unfold is_int, int_min, int_max; lia).
  assert (is_int 25) as H25 by (unfold is_int, int_min, int_max; lia).
  split; [done|]. exact (compare_zero_iff ⟨6, 6⟩ ⟨6, 25⟩ H6 H25).
Defined.

(** X2. With minutes in [0,59], exchanging the arguments of [compare]
    negates its result. *)
Theorem compare_swap a b :
  0 ≤ minute a ≤ 59 → 0 ≤ minute b ≤ 59 →
  compare b a = - compare a b.
Proof.
  intros Ha Hb. unfold compare, int_sub.
  rewrite !wrap_small by (unfold is_int, int_min, int_max; lia).
  destruct (Z.ltb_spec (hour a) (hour b)), (Z.eqb_spec (hour a) (hour b)),
    (Z.ltb_spec (hour b) (hour a)), (Z.eqb_spec (hour b) (hour a)); lia.
Qed.

Lemma compare_swap_witness :
  (0 ≤ minute ⟨23, 59⟩ ≤ 59 ∧ 0 ≤ minute ⟨0, 18⟩ ≤ 59)
  ∧ compare ⟨0, 18⟩ ⟨23, 59⟩ = - compare ⟨23, 59⟩ ⟨0, 18⟩.
Proof.
  assert (0 ≤ minute ⟨23, 59⟩ ≤ 59) as Ha by (simpl; lia).
  assert (0 ≤ minute ⟨0, 18⟩ ≤ 59) as Hb by (simpl; lia).
  split; [done|]. exact (compare_swap ⟨23, 59⟩ ⟨0, 18⟩ Ha Hb).
Defined.

Lemma compare_nonpos a b :
  0 ≤ minute a ≤ 59 → 0 ≤ minute b ≤ 59 →
  compare a b ≤ 0 ↔ hour a < hour b ∨ (hour a = hour b ∧ minute a ≤ minute b).
Proof.
  intros Ha Hb.
  pose proof (compare_pos a b Ha Hb). lia.
Qed.

Lemma compare_nonpos_trans a b c :
  0 ≤ minute a ≤ 59 → 0 ≤ minute b ≤ 59 → 0 ≤ minute c ≤ 59 →
  compare a b ≤ 0 → compare b c ≤ 0 → compare a c ≤ 0.
Proof.
  intros Ha Hb Hc. rewrite !compare_nonpos by done. lia.
Qed.

(** X3. With minutes in [0,59], "compares greater" and "compares less or
    equal" are transitive. *)
Theorem compare_trans a b c :
  0 ≤ minute a ≤ 59 → 0 ≤ minute b ≤ 59 → 0 ≤ minute c ≤ 59 →
  (0 < compare a b → 0 < compare b c → 0 < compare a c)
  ∧ (compare a b ≤ 0 → compare b c ≤ 0 → compare a c ≤ 0).
Proof.
  intros Ha Hb Hc. split.
  - rewrite !compare_pos by done. lia.
  - by apply compare_nonpos_trans.
Qed.

Lemma compare_trans_witness :
  (0 ≤ minute ⟨6, 25⟩ ≤ 59 ∧ 0 ≤ minute ⟨6, 6⟩ ≤ 59 ∧ 0 ≤ minute ⟨5, 47⟩ ≤ 59)
  ∧ (0 < compare ⟨6, 25⟩ ⟨6, 6⟩ ∧ 0 < compare ⟨6, 6⟩ ⟨5, 47⟩)
  ∧ 0 < compare ⟨6, 25⟩ ⟨5, 47⟩.
Proof.
  assert (0 ≤ minute ⟨6, 25⟩ ≤ 59) as Ha by (simpl; lia).
  assert (0 ≤ minute ⟨6, 6⟩ ≤ 59) as Hb by (simpl; lia).
  assert (0 ≤ minute ⟨5, 47⟩ ≤ 59) as Hc by (simpl; lia).
  assert (0 < compare ⟨6, 25⟩ ⟨6, 6⟩) as Hab by reflexivity.
  assert (0 < compare ⟨6, 6⟩ ⟨5, 47⟩) as Hbc by reflexivity.
  split; [done|]. split; [done|].
  exact (proj1 (compare_trans ⟨6, 25⟩ ⟨6, 6⟩ ⟨5, 47⟩ Ha Hb Hc) Hab Hbc).
Defined.

(** * Further properties of the lookup *)

Lemma ascending_lookup_le tt :
  Forall clock_minute tt → ascending tt →
  ∀ (n i : nat) a b,
    tt !! i = Some a → tt !! (i + n)%nat = Some b → compare a b ≤ 0.
Proof.
  intros Hmin Hasc n. induction n as [|n IH]; intros i a b Ha Hb.
  - rewrite Nat.add_0_r in Hb. simplify_eq.
    rewrite compare_refl; [done|].
    eapply Forall_lookup_1 in Hmin; [|exact Ha].
    unfold clock_minute, is_int, int_min, int_max in *. lia.
  - destruct (tt !! (i + n)%nat) as [c|] eqn:Hc.
    + apply (compare_nonpos_trans a c b).
      * by eapply (Forall_lookup_1 clock_minute).
      * by eapply (Forall_lookup_1 clock_minute).
      * by eapply (Forall_lookup_1 clock_minute).
      * by eapply IH.
      * apply (Hasc (i + n)%nat); [done|]. by rewrite <-Nat.add_succ_r.
    + apply lookup_ge_None in Hc. apply lookup_lt_Some in Hb. lia.
Qed.

Lemma schedule_take_clock_minute : Forall clock_minute (take 58 schedule).
Proof.
  apply Forall_take. eapply Forall_impl; [apply schedule_in_day|].
  by intros e [_ ?].
Qed.

Lemma schedule_take_ascending : ascending (take 58 schedule).
Proof. by apply ascendingb_sound. Qed.

(** X4. On an ascending timetable with minutes in [0,59], the entry the
    scan returns is the earliest of the entries that compare greater than
    [now]: it compares less than or equal to each of them. *)
Theorem first_after_earliest tt now a :
  Forall clock_minute tt → ascending tt →
  first_after tt now = Some a →
  ∀ e, e ∈ tt → 0 < compare e now → compare a e ≤ 0.
Proof.
  intros Hmin Hasc (i & Hi & _ & Hbefore)%first_after_index e He Hlater.
  apply list_elem_of_lookup in He as [j Hj].
  destruct (decide (j < i)%nat) as [Hlt|Hge].
  - specialize (Hbefore j e Hlt Hj). lia.
  - apply (ascending_lookup_le tt Hmin Hasc (j - i) i); [done|].
    by replace (i + (j - i))%nat with j by lia.
Qed.

Lemma first_after_earliest_witness :
  (Forall clock_minute (take 58 schedule) ∧ ascending (take 58 schedule))
  ∧ first_after (take 58 schedule) ⟨6, 6⟩ = Some ⟨6, 25⟩
  ∧ compare ⟨6, 25⟩ ⟨23, 59⟩ ≤ 0.
Proof.
  pose proof schedule_take_clock_minute as Hmin.
  pose proof schedule_take_ascending as Hasc.
  assert (first_after (take 58 schedule) ⟨6, 6⟩ = Some ⟨6, 25⟩) as Hf
    by reflexivity.
  split; [done|]. split; [done|].
  apply (first_after_earliest _ ⟨6, 6⟩ ⟨6, 25⟩ Hmin Hasc Hf ⟨23, 59⟩);
    [|reflexivity].
  apply (list_elem_of_lookup_2 _ 57). reflexivity.
Defined.

Lemma first_after_app l1 l2 now :
  first_after (l1 ++ l2) now
  = match first_after l1 now with
    | Some e => Some e
    | None => first_after l2 now
    end.
Proof.
  induction l1 as [|e l1 IH]; [done|]. cbn [app first_after].
  by destruct (0 <? compare e now).
Qed.

Lemma first_after_schedule_take now :
  first_after schedule now = first_after (take 58 schedule) now.
Proof.
  rewrite <-(take_drop 58 schedule) at 1. rewrite first_after_app.
  destruct (first_after (take 58 schedule) now) as [e|] eqn:He; [done|].
  assert (compare ⟨5, 47⟩ now ≤ 0) as Hhead.
  { apply first_after_None in He.
    by apply (Forall_lookup_1 _ _ 0%nat ⟨5, 47⟩) in He. }
  apply first_after_None. repeat constructor.
  - destruct (Z.le_gt_cases (compare ⟨0, 18⟩ now) 0) as [|Hgt]; [done|].
    apply midnight_entry_after in Hgt. lia.
  - destruct (Z.le_gt_cases (compare ⟨0, 37⟩ now) 0) as [|Hgt]; [done|].
    apply midnight_entry_after in Hgt. lia.
Qed.

(** X5. The two entries after midnight are dead data: for every [now],
    [next_arrival] returns what the lookup returns on the 58 entries
    before them. *)
Theorem next_arrival_ignores_trailing now :
  next_arrival now = next_arrival_on (take 58 schedule) now.
Proof.
  unfold next_arrival, next_arrival_on.
  by rewrite first_after_schedule_take.
Qed.

(** X6. No bus of the day is skipped: whenever one of the first 58
    entries compares greater than [now], [next_arrival] returns one of
    them that compares greater than [now] and is not later than that
    entry. *)
Theorem next_arrival_earliest_of_day now e :
  e ∈ take 58 schedule → 0 < compare e now →
  ∃ a, next_arrival now = Ok a ∧ a ∈ take 58 schedule
    ∧ 0 < compare a now ∧ compare a e ≤ 0.
Proof.
  intros He Hlater.
  destruct (first_after (take 58 schedule) now) as [a|] eqn:Ha.
  - exists a. split.
    { unfold next_arrival, next_arrival_on.
      by rewrite first_after_schedule_take, Ha. }
    split; [by eapply first_after_elem|].
    apply first_after_index in Ha as (i & Hi & Hpos & Hbefore).
    split; [done|].
    apply list_elem_of_lookup in He as [j Hj].
    destruct (decide (j < i)%nat) as [Hlt|Hge].
    + specialize (Hbefore j e Hlt Hj). lia.
    + apply (ascending_lookup_le (take 58 schedule)
               schedule_take_clock_minute schedule_take_ascending
               (j - i) i); [done|].
      by replace (i + (j - i))%nat with j by lia.
  - apply first_after_None in Ha. rewrite Forall_forall in Ha.
    specialize (Ha e He). lia.
Qed.

Lemma next_arrival_earliest_of_day_witness :
  (⟨23, 59⟩ ∈ take 58 schedule ∧ 0 < compare ⟨23, 59⟩ ⟨13, 0⟩)
  ∧ ∃ a, next_arrival ⟨13, 0⟩ = Ok a ∧ a ∈ take 58 schedule
      ∧ 0 < compare a ⟨13, 0⟩ ∧ compare a ⟨23, 59⟩ ≤ 0.
Proof.
  assert (⟨23, 59⟩ ∈ take 58 schedule) as He
    by (apply (list_elem_of_lookup_2 _ 57); reflexivity).
  assert (0 < compare ⟨23, 59⟩ ⟨13, 0⟩) as Hc by reflexivity.
  split; [done|]. exact (next_arrival_earliest_of_day ⟨13, 0⟩ ⟨23, 59⟩ He Hc).
Defined.

(** X7. Outside the hours of the day: when the hour of [now] is below 5,
    the first entry (5,47) is returned; when it is 24 or more, no entry
    compares greater and (29,47) is returned, which from hour 30 on is not
    later than [now]. *)
Theorem next_arrival_outside_day now :
  (hour now < 5 → next_arrival now = Ok ⟨5, 47⟩)
  ∧ (24 ≤ hour now → next_arrival now = Ok ⟨29, 47⟩)
  ∧ (30 ≤ hour now → ∃ a, next_arrival now = Ok a ∧ compare a now < 0).
Proof.
  assert (24 ≤ hour now → next_arrival now = Ok ⟨29, 47⟩) as Hlate.
  { intros Hh.
    destruct (next_arrival_cases now) as [(e & He & _)|[_ ->]]; [|done].
    pose proof (first_after_elem _ _ _ He) as Hin.
    apply first_after_Some in He as (_ & _ & _ & _ & Hc).
    pose proof schedule_in_day as Hday. rewrite Forall_forall in Hday.
    destruct (Hday e Hin) as [He _].
    unfold compare in Hc. destruct (Z.ltb_spec (hour e) (hour now)); lia. }
  split_and!; [|done|].
  - intros Hh. unfold next_arrival, next_arrival_on.
    rewrite first_after_schedule_head; [done|].
    rewrite compare_later_hour; simpl; lia.
  - intros Hh. exists ⟨29, 47⟩. split; [apply Hlate; lia|].
    unfold compare. simpl. destruct (Z.ltb_spec 29 (hour now)); lia.
Qed.

Lemma next_arrival_outside_day_witness :
  (hour ⟨-1, 0⟩ < 5 ∧ next_arrival ⟨-1, 0⟩ = Ok ⟨5, 47⟩)
  ∧ (24 ≤ hour ⟨31, 0⟩ ∧ next_arrival ⟨31, 0⟩ = Ok ⟨29, 47⟩).
Proof.
  assert (hour ⟨-1, 0⟩ < 5) as Hlo by reflexivity.
  assert (24 ≤ hour ⟨31, 0⟩) as Hhi by (simpl; lia).
  split; (split; [done|]).
  - exact (proj1 (next_arrival_outside_day ⟨-1, 0⟩) Hlo).
  - exact (proj1 (proj2 (next_arrival_outside_day ⟨31, 0⟩)) Hhi).
Defined.

Lemma minute_of_day_exact now :
  in_day now →
  0 ≤ exact_minutes now < 1440 ∧ minute_of_day (exact_minutes now) = now.
Proof.
  destruct now as [h m]. unfold in_day, exact_minutes, minute_of_day. simpl.
  intros [Hh Hm]. split; [lia|].
  f_equal; Z.div_mod_to_equations; lia.
Qed.

Lemma next_arrival_clock_minute now a :
  next_arrival now = Ok a → clock_minute a.
Proof.
  intros [->|Hin]%next_arrival_range%elem_of_cons.
  - unfold clock_minute. simpl. lia.
  - pose proof schedule_in_day as Hday. rewrite Forall_forall in Hday.
    by destruct (Hday a Hin).
Qed.

Lemma next_arrival_step k :
  0 ≤ k < 1439 →
  ∃ a b, next_arrival (minute_of_day k) = Ok a
    ∧ next_arrival (minute_of_day (k + 1)) = Ok b ∧ compare a b ≤ 0.
Proof.
  intros Hk.
  assert (step_check k = true) as Hc.
  { apply (seqZ_forallb step_check 0 1439); [by vm_compute|lia]. }
  unfold step_check in Hc.
  destruct (next_arrival (minute_of_day k)) as [a|]; [|done].
  destruct (next_arrival (minute_of_day (k + 1))) as [b|]; [|done].
  exists a, b. by apply Z.leb_le in Hc.
Qed.

Lemma next_arrival_chain (n : nat) k :
  0 ≤ k → k + Z.of_nat n < 1440 →
  ∃ a b, next_arrival (minute_of_day k) = Ok a
    ∧ next_arrival (minute_of_day (k + Z.of_nat n)) = Ok b ∧ compare a b ≤ 0.
Proof.
  induction n as [|n IH]; intros Hk Hn.
  - rewrite Z.add_0_r.
    destruct (next_arrival (minute_of_day k)) as [a|f] eqn:Ha.
    + exists a, a. split_and!; [done..|].
      apply next_arrival_clock_minute in Ha.
      rewrite compare_refl; [done|].
      unfold clock_minute, is_int, int_min, int_max in *. lia.
    + unfold next_arrival in Ha. by apply next_arrival_on_fault in Ha as [_ ?].
  - destruct IH as (a & b & Ha & Hb & Hab); [lia..|].
    destruct (next_arrival_step (k + Z.of_nat n)) as (b' & c & Hb' & Hc & Hbc);
      [lia|].
    rewrite Hb in Hb'. injection Hb' as <-.
    replace (k + Z.of_nat (S n)) with (k + Z.of_nat n + 1) by lia.
    exists a, c. split_and!; [done..|].
    apply (compare_nonpos_trans a b c); [..|done|done];
      by eapply next_arrival_clock_minute.
Qed.

(** X8. Over the readings of the clock, [next_arrival] is monotone: if
    [now1] compares less than or equal to [now2], so does the arrival
    found at [now1] to the one found at [now2]. *)
Theorem next_arrival_monotone now1 now2 :
  in_day now1 → in_day now2 → compare now1 now2 ≤ 0 →
  ∃ a1 a2, next_arrival now1 = Ok a1 ∧ next_arrival now2 = Ok a2
    ∧ compare a1 a2 ≤ 0.
Proof.
  intros H1 H2 Hle.
  apply compare_nonpos in Hle; [|apply H1|apply H2].
  destruct (minute_of_day_exact now1 H1) as [Hk1 E1].
  destruct (minute_of_day_exact now2 H2) as [Hk2 E2].
  assert (exact_minutes now1 ≤ exact_minutes now2) as Hk.
  { unfold exact_minutes. destruct H1, H2. lia. }
  destruct (next_arrival_chain
    (Z.to_nat (exact_minutes now2 - exact_minutes now1)) (exact_minutes now1))
    as (a & b & Ha & Hb & Hab); [lia..|].
  replace (exact_minutes now1
           + Z.of_nat (Z.to_nat (exact_minutes now2 - exact_minutes now1)))
    with (exact_minutes now2) in Hb by lia.
  rewrite E1 in Ha. rewrite E2 in Hb. by exists a, b.
Qed.

Lemma next_arrival_monotone_witness :
  (in_day ⟨6, 0⟩ ∧ in_day ⟨23, 59⟩ ∧ compare ⟨6, 0⟩ ⟨23, 59⟩ ≤ 0)
  ∧ ∃ a1 a2, next_arrival ⟨6, 0⟩ = Ok a1 ∧ next_arrival ⟨23, 59⟩ = Ok a2
      ∧ compare a1 a2 ≤ 0.
Proof.
  assert (in_day ⟨6, 0⟩) as H1 by (unfold in_day; simpl; lia).
  assert (in_day ⟨23, 59⟩) as H2 by (unfold in_day; simpl; lia).
  assert (compare ⟨6, 0⟩ ⟨23, 59⟩ ≤ 0) as Hle by (vm_compute; discriminate).
  split; [done|]. exact (next_arrival_monotone ⟨6, 0⟩ ⟨23, 59⟩ H1 H2 Hle).
Defined.

(** * Further properties of the duration *)

(** X9. Within the range of [int] and with minutes in [0,59], the sign of
    [minutes_difference] is the sign of [compare]: the result is positive
    when [next] is later than [now], zero when they are equal, and
    negative when the precondition is violated by an earlier [next]. *)
Theorem minutes_difference_sign next now :
  0 ≤ minute next ≤ 59 → 0 ≤ minute now ≤ 59 →
  is_int (exact_minutes next - exact_minutes now) →
  (0 < compare next now ↔ 0 < minutes_difference next now)
  ∧ (compare next now = 0 ↔ minutes_difference next now = 0)
  ∧ (compare next now < 0 ↔ minutes_difference next now < 0).
Proof.
  intros Hn Hw Hfit. rewrite minutes_difference_exact by done.
  pose proof (compare_pos next now Hn Hw) as Hpos.
  pose proof (compare_pos now next Hw Hn) as Hneg.
  rewrite (compare_swap next now Hn Hw) in Hneg.
  unfold exact_minutes. split_and!; lia.
Qed.

Lemma minutes_difference_sign_witness :
  (0 ≤ minute ⟨5, 47⟩ ≤ 59 ∧ 0 ≤ minute ⟨6, 6⟩ ≤ 59)
  ∧ compare ⟨5, 47⟩ ⟨6, 6⟩ < 0
  ∧ minutes_difference ⟨5, 47⟩ ⟨6, 6⟩ < 0.
Proof.
  assert (0 ≤ minute ⟨5, 47⟩ ≤ 59) as Hn by (simpl; lia).
  assert (0 ≤ minute ⟨6, 6⟩ ≤ 59) as Hw by (simpl; lia).
  assert (is_int (exact_minutes ⟨5, 47⟩ - exact_minutes ⟨6, 6⟩)) as Hfit
    by (unfold is_int, int_min, int_max, exact_minutes; simpl; lia).
  assert (compare ⟨5, 47⟩ ⟨6, 6⟩ < 0) as Hc by reflexivity.
  split; [done|]. split; [done|].
  exact (proj1 (proj2 (proj2 (minutes_difference_sign _ _ Hn Hw Hfit))) Hc).
Defined.

(** X10. Durations add up: the duration from [a] to [c] is the [int] sum of
    the durations from [a] to [b] and from [b] to [c], for all points. *)
Theorem minutes_difference_add a b c :
  minutes_difference c a
  = int_add (minutes_difference b a) (minutes_difference c b).
Proof. rewrite !minutes_difference_wrap. unfold exact_minutes. wrap_lia. Qed.

(** X11. Adding 24 to the hour of [next], as the wraparound of
    [next_arrival] does, adds 1440 minutes to the duration. *)
Theorem minutes_difference_next_day next now :
  minutes_difference ⟨int_add (hour next) 24, minute next⟩ now
  = int_add (minutes_difference next now) 1440.
Proof. rewrite !minutes_difference_wrap. unfold exact_minutes. simpl. wrap_lia. Qed.

(** X12. For every reading [now] of the clock, the next arrival is at
    least 1 and at most 348 minutes away: the counter never shows a
    duration of zero or less. *)
Theorem next_arrival_duration_bounds now :
  in_day now →
  ∃ a, next_arrival now = Ok a ∧ 1 ≤ minutes_difference a now ≤ 348.
Proof.
  intros Hnow. destruct (minute_of_day_exact now Hnow) as [Hk E].
  assert (duration_check (exact_minutes now) = true) as Hc.
  { apply (seqZ_forallb duration_check 0 1440); [by vm_compute|lia]. }
  unfold duration_check in Hc. rewrite E in Hc.
  destruct (next_arrival now) as [a|]; [|done].
  exists a. apply andb_true_iff in Hc as [?%Z.leb_le ?%Z.leb_le]. done.
Qed.

Lemma next_arrival_duration_bounds_witness :
  in_day ⟨23, 59⟩
  ∧ ∃ a, next_arrival ⟨23, 59⟩ = Ok a
      ∧ 1 ≤ minutes_difference a ⟨23, 59⟩ ≤ 348.
Proof.
  assert (in_day ⟨23, 59⟩) as Hv by (unfold in_day; simpl; lia).
  split; [done|]. exact (next_arrival_duration_bounds ⟨23, 59⟩ Hv).
Defined.

(** * Further properties of the display *)

Lemma substring_length n s : (String.length (String.substring 0 n s) ≤ n)%nat.
Proof.
  revert s. induction n as [|n IH]; intros [|c s]; simpl; try lia.
  specialize (IH s). lia.
Qed.

Lemma update_content_on_unfold tt now ui :
  update_content_on tt now ui
  = match next_arrival_on tt now with
    | Ok a =>
        Ok (mk_screen (header_text ui)
              (if 60 <? minutes_difference a now
               then over_an_hour else minutes_text (minutes_difference a now))
              (details_of a) (ticking ui))
    | Fail f => Fail f
    end.
Proof.
  unfold update_content_on, mbind, res_bind.
  destruct (next_arrival_on tt now) as [a|f]; [|done].
  by destruct (60 <? minutes_difference a now).
Qed.

(** X13. Whatever the timetable and the reading of the clock, the texts
    [update_content] writes fit their buffers: at most 9 characters for
    the counter and 19 for the details, the terminating zero apart. *)
Theorem update_content_fits_buffers tt now ui ui' :
  update_content_on tt now ui = Ok ui' →
  (String.length (counter_text ui') ≤ 9)%nat
  ∧ (String.length (details_text ui') ≤ 19)%nat.
Proof.
  rewrite update_content_on_unfold.
  destruct (next_arrival_on tt now) as [a|f]; [|done].
  intros [= <-]. cbn [counter_text details_text]. split.
  - destruct (60 <? minutes_difference a now); [simpl; lia|].
    apply (substring_length 9).
  - apply (substring_length 19).
Qed.

Lemma update_content_fits_buffers_witness :
  ∃ ui', update_content_on [⟨0, 0⟩] ⟨1234591, 0⟩ (mk_screen "" "" "" false) = Ok ui'
    ∧ counter_text ui' = "-74074020"
    ∧ (String.length (counter_text ui') ≤ 9)%nat
    ∧ (String.length (details_text ui') ≤ 19)%nat.
Proof.
  exists (mk_screen "" "-74074020" "700:  24:00" false).
  assert (update_content_on [⟨0, 0⟩] ⟨1234591, 0⟩ (mk_screen "" "" "" false)
          = Ok (mk_screen "" "-74074020" "700:  24:00" false)) as Hui
    by by vm_compute.
  split; [done|]. split; [done|].
  exact (update_content_fits_buffers _ _ _ _ Hui).
Defined.

(** X14. [update_content] keeps the header text and the tick
    subscription, and what it writes depends on the reading of the clock
    only, not on the texts shown before: an update after another gives
    what it gives alone, and repeating an update at the same reading
    changes nothing. *)
Theorem update_content_overwrites tt now1 now2 ui ui1 :
  update_content_on tt now1 ui = Ok ui1 →
  header_text ui1 = header_text ui ∧ ticking ui1 = ticking ui
  ∧ update_content_on tt now2 ui1 = update_content_on tt now2 ui
  ∧ update_content_on tt now1 ui1 = Ok ui1.
Proof.
  rewrite !update_content_on_unfold.
  destruct (next_arrival_on tt now1) as [a|f]; [|done].
  intros [= <-]. simpl. split_and!; try done.
Qed.

Lemma update_content_overwrites_witness :
  update_content_on schedule ⟨6, 0⟩ (mk_screen "Next Bus" "" "" true)
  = Ok (mk_screen "Next Bus" "6m" "700:  6:06" true)
  ∧ update_content_on schedule ⟨6, 1⟩ (mk_screen "Next Bus" "6m" "700:  6:06" true)
    = update_content_on schedule ⟨6, 1⟩ (mk_screen "Next Bus" "" "" true).
Proof.
  assert (update_content_on schedule ⟨6, 0⟩ (mk_screen "Next Bus" "" "" true)
          = Ok (mk_screen "Next Bus" "6m" "700:  6:06" true)) as Hui
    by by vm_compute.
  split; [done|].
  exact (proj1 (proj2 (proj2
    (update_content_overwrites schedule ⟨6, 0⟩ ⟨6, 1⟩ _ _ Hui)))).
Defined.

Lemma handle_tick_after_init tt now ui :
  header_text ui = "Next Bus" → ticking ui = true →
  handle_tick_on tt now ui = init_on tt now.
Proof.
  intros Hh Ht.
  unfold handle_tick_on, init_on, window_load_on, mbind, res_bind.
  rewrite !update_content_on_unfold.
  destruct (next_arrival_on tt now) as [a|f]; [|done].
  simpl. by rewrite Hh, Ht.
Qed.

Lemma init_on_screen tt now ui :
  init_on tt now = Ok ui → header_text ui = "Next Bus" ∧ ticking ui = true.
Proof.
  unfold init_on, window_load_on, mbind, res_bind.
  rewrite update_content_on_unfold.
  destruct (next_arrival_on tt now) as [a|f]; [|done].
  by intros [= <-].
Qed.

Lemma init_on_Fail_any tt now now' f :
  init_on tt now = Fail f → init_on tt now' = Fail f.
Proof.
  intros Hf. pose proof (init_on_fault _ _ _ Hf) as Hn.
  apply next_arrival_on_fault in Hn as [-> ->]. done.
Qed.

(** X15. A run of the application, [init] followed by any number of
    minute ticks, ends with the screen that [init] alone gives at the
    last reading of the clock; on the compiled-in schedule that screen
    always exists, with the header ["Next Bus"] and the tick subscribed. *)
Theorem main_shows_last_reading start ticks :
  (∀ tt, main_on tt start ticks = init_on tt (List.last ticks start))
  ∧ ∃ ui, main start ticks = Ok ui
      ∧ header_text ui = "Next Bus" ∧ ticking ui = true.
Proof.
  assert (∀ tt, main_on tt start ticks = init_on tt (List.last ticks start)) as Hrun.
  { intros tt. unfold main_on, app_event_loop_on.
    induction ticks as [|t ticks IH] using rev_ind; [done|].
    rewrite foldl_app, last_last. simpl. rewrite IH.
    destruct (init_on tt (List.last ticks start)) as [ui|f] eqn:Hi.
    - apply init_on_screen in Hi as [Hh Ht]. simpl.
      unfold mbind, res_bind. by apply handle_tick_after_init.
    - simpl. symmetry. by eapply init_on_Fail_any. }
  split; [done|]. unfold main. rewrite Hrun.
  destruct (init_on schedule (List.last ticks start)) as [ui|f] eqn:Hi.
  - exists ui. split; [done|]. by eapply init_on_screen.
  - by apply init_on_fault, next_arrival_on_fault in Hi as [_ ?].
Qed.

(** X16. When the wraparound returns an arrival of hour 24, which it does
    on a timetable whose first entry has hour 0, the details text prints
    the hour as 24: only hours above 24 are reduced. *)
Theorem update_content_shows_hour_24 tt m now ui :
  tt !! 0%nat = Some ⟨0, m⟩ → first_after tt now = None →
  ∃ ui', update_content_on tt now ui = Ok ui'
    ∧ details_text ui' = snprintf 20 ("700:  24:" +:+ fmt_02d m).
Proof.
  intros Hfirst Hnone. rewrite update_content_on_unfold.
  unfold next_arrival_on. rewrite Hnone, Hfirst. eexists. split; [done|].
  reflexivity.
Qed.

Lemma update_content_shows_hour_24_witness :
  ([⟨0, 18⟩; ⟨0, 37⟩] !! 0%nat = Some ⟨0, 18⟩
   ∧ first_after [⟨0, 18⟩; ⟨0, 37⟩] ⟨12, 0⟩ = None)
  ∧ ∃ ui', update_content_on [⟨0, 18⟩; ⟨0, 37⟩] ⟨12, 0⟩
             (mk_screen "Next Bus" "" "" true) = Ok ui'
      ∧ details_text ui' = "700:  24:18".
Proof.
  assert ([⟨0, 18⟩; ⟨0, 37⟩] !! 0%nat = Some ⟨0, 18⟩) as Hfirst by reflexivity.
  assert (first_after [⟨0, 18⟩; ⟨0, 37⟩] ⟨12, 0⟩ = None) as Hnone by reflexivity.
  split; [done|].
  destruct (update_content_shows_hour_24 _ 18 ⟨12, 0⟩
              (mk_screen "Next Bus" "" "" true) Hfirst Hnone)
    as (ui' & Hui & Hd).
  exists ui'. split; [done|]. by rewrite Hd.
Defined.

(** X17. From midnight until 5:46, and at 23:59, the details text names
    the 5:47 bus: the buses of 0:18 and 0:37 are never announced, and the
    hour 29 of the wraparound is printed as 5. *)
Theorem update_content_at_night now ui :
  in_day now → compare now ⟨5, 47⟩ < 0 ∨ now = ⟨23, 59⟩ →
  ∃ ui', update_content now ui = Ok ui' ∧ details_text ui' = "700:  5:47".
Proof.
  intros Hnow [Hearly| ->].
  - assert (next_arrival now = Ok ⟨5, 47⟩) as Ha.
    { unfold next_arrival, next_arrival_on.
      rewrite first_after_schedule_head; [done|].
      rewrite (compare_swap now ⟨5, 47⟩); [lia|apply Hnow|simpl; lia]. }
    eexists. split; [by apply update_content_unfold|done].
  - eexists. split; [by apply update_content_unfold|done].
Qed.

Lemma update_content_at_night_witness :
  (in_day ⟨0, 10⟩ ∧ compare ⟨0, 10⟩ ⟨5, 47⟩ < 0)
  ∧ ∃ ui', update_content ⟨0, 10⟩ (mk_screen "Next Bus" "" "" true) = Ok ui'
      ∧ details_text ui' = "700:  5:47".
Proof.
  assert (in_day ⟨0, 10⟩) as Hv by (unfold in_day; simpl; lia).
  assert (compare ⟨0, 10⟩ ⟨5, 47⟩ < 0) as Hc by reflexivity.
  split; [done|].
  exact (update_content_at_night ⟨0, 10⟩ _ Hv (or_introl Hc)).
Defined.

(** * Properties of the layout *)

Lemma wrap16_small z : - 2 ^ 15 ≤ z < 2 ^ 15 → wrap16 z = z.
Proof. unfold wrap16. intros Hz. rewrite Z.mod_small by lia. lia. Qed.

Lemma int_small z : - 2 ^ 16 ≤ z ≤ 2 ^ 16 → wrap z = z.
Proof. intros Hz. apply wrap_small. unfold is_int, int_min, int_max. lia. Qed.

(** For heights, font sizes and font heights that fit an [int16_t],
    nothing overflows in the computation of the shift. *)
Lemma aligned_offset_exact h font_size height :
  0 ≤ h ≤ 32767 → 0 ≤ font_size ≤ 32767 → 0 ≤ height ≤ 32767 →
  aligned_offset h font_size height
  = (h `quot` 2 - font_size + height `quot` 2) `quot` 2.
Proof.
  intros Hh Hf Hht. unfold aligned_offset, int_div, int_sub, int_add.
  assert (0 ≤ h `quot` 2 ≤ 16383) as H1 by (Z.quot_rem_to_equations; lia).
  assert (0 ≤ height `quot` 2 ≤ 16383) as H2 by (Z.quot_rem_to_equations; lia).
  rewrite (int_small (h `quot` 2)) by lia.
  rewrite (int_small (height `quot` 2)) by lia.
  rewrite (int_small (h `quot` 2 - font_size)) by lia.
  rewrite (int_small (h `quot` 2 - font_size + height `quot` 2)) by lia.
  apply int_small. Z.quot_rem_to_equations. lia.
Qed.

(** X18. For the two font sizes the function is written for, and a frame
    whose height is a non-negative [int16_t]: the bounds keep the size of
    the frame and are shifted vertically only; and with the shift doubled
    (as the code's comment says the text layer moves) the centre line of
    the text, [font_size] less half the font height below the top, is
    within one row of the centre line of the frame. *)
Theorem aligned_text_layer_centered rect font_size :
  0 ≤ size_h rect ≤ 32767 → font_size = 42 ∨ font_size = 28 →
  let l := aligned_text_layer_create rect font_size in
  let half_height := if font_size =? 42 then 15 else 9 in
  frame l = rect
  ∧ origin_x (bounds l) = 0
  ∧ size_w (bounds l) = size_w rect ∧ size_h (bounds l) = size_h rect
  ∧ -1 ≤ font_size - half_height + 2 * origin_y (bounds l)
         - size_h rect `quot` 2 ≤ 1.
Proof.
  intros Hh [-> | ->]; cbv zeta; unfold aligned_text_layer_create;
    cbn [Z.eqb Pos.eqb frame bounds origin_x origin_y size_w size_h];
    rewrite aligned_offset_exact by lia;
    (rewrite wrap16_small by (Z.quot_rem_to_equations; lia));
    (split_and!; [done..| |]); Z.quot_rem_to_equations; lia.
Qed.

Lemma aligned_text_layer_centered_witness :
  (0 ≤ size_h (mk_GRect 0 42 144 84) ≤ 32767)
  ∧ origin_y (bounds (aligned_text_layer_create (mk_GRect 0 42 144 84) 42)) = 7
  ∧ -1 ≤ 42 - 15 + 2 * 7 - 42 ≤ 1.
Proof.
  assert (0 ≤ size_h (mk_GRect 0 42 144 84) ≤ 32767) as Hh by (simpl; lia).
  split; [done|]. split; [reflexivity|].
  exact (proj2 (proj2 (proj2 (proj2
    (aligned_text_layer_centered (mk_GRect 0 42 144 84) 42 Hh (or_introl eq_refl)))))).
Defined.

(** X19. Whatever the width of the window, the frames of the three layers
    [window_load] creates are stacked without gap or overlap from row 0 to
    row 168, header above counter above details, each as wide as the
    window; their texts are shifted down by 1, 7 and 1 rows. *)
Theorem window_load_layout win :
  ∃ h c d, window_load_layers win = [h; c; d]
    ∧ origin_y (frame h) = 0
    ∧ frame_bottom (frame h) = origin_y (frame c)
    ∧ frame_bottom (frame c) = origin_y (frame d)
    ∧ frame_bottom (frame d) = 168
    ∧ Forall (λ l, origin_x (frame l) = 0 ∧ size_w (frame l) = size_w win
                   ∧ origin_x (bounds l) = 0
                   ∧ size_w (bounds l) = size_w win
                   ∧ size_h (bounds l) = size_h (frame l)) [h; c; d]
    ∧ origin_y (bounds h) = 1 ∧ origin_y (bounds c) = 7
    ∧ origin_y (bounds d) = 1.
Proof.
  do 3 eexists. split; [reflexivity|].
  split_and!; try reflexivity.
  repeat constructor.
Qed.
